(** * Arodos website: contact form and mobile menu

    A shallow embedding of [script.js] (the e-mail helper [sendEmail], the
    HTML template [formSubmitTemplate] and the contact-form submit handler)
    and of the inline mobile-menu script, followed by the properties of the
    repository's specification that are stated about them. *)

From Stdlib Require Import NArith ZArith Ascii String Decimal DecimalString.
From Stdlib Require Import Floats.SpecFloat.
From stdpp Require Import base tactics option list numbers strings gmap.

Local Open Scope N_scope.
Local Set Warnings "-register-all,-clear-no-such-hyp".

(** ** JavaScript strings

    A JavaScript string is a finite sequence of UTF-16 code units.  The
    literals of the source are ASCII except for four pictographs, which are
    written out as code units where they occur. *)

Abbreviation jsstring := (list N).

Module JSString.

(** An ASCII literal of the source, one code unit per character. *)
Definition lit (s : string) : jsstring :=
  N_of_ascii <$> list_ascii_of_string s.

Definition TAB : N := 0x09.
Definition LF : N := 0x0A.
Definition DQUOTE : N := 0x22.

Definition tabs (n : nat) : jsstring := replicate n TAB.
Definition dq : jsstring := [DQUOTE].

(** The lines of a multi-line literal, joined by line feeds. *)
Fixpoint lines (ls : list jsstring) : jsstring :=
  match ls with
  | [] => []
  | [l] => l
  | l :: ls' => l ++ LF :: lines ls'
  end.

(** ECMAScript [WhiteSpace] and [LineTerminator] code points, the ones
    [String.prototype.trim] strips.  All of them are in the BMP, so the
    test is per code unit. *)
Definition is_white_space (c : N) : bool :=
  (c =? 0x09) || (c =? 0x0A) || (c =? 0x0B) || (c =? 0x0C) || (c =? 0x0D)
  || (c =? 0x20) || (c =? 0xA0) || (c =? 0x1680)
  || ((0x2000 <=? c) && (c <=? 0x200A))
  || (c =? 0x2028) || (c =? 0x2029) || (c =? 0x202F) || (c =? 0x205F)
  || (c =? 0x3000) || (c =? 0xFEFF).

Fixpoint trimStart (s : jsstring) : jsstring :=
  match s with
  | c :: s' => if is_white_space c then trimStart s' else s
  | [] => []
  end.

Definition trimEnd (s : jsstring) : jsstring :=
  reverse (trimStart (reverse s)).

(** [String.prototype.trim]. *)
Definition trim (s : jsstring) : jsstring := trimEnd (trimStart s).

(** A run of white space. *)
Definition blank (s : jsstring) : Prop := Forall (λ c, is_white_space c = true) s.

(** Decimal rendering of a non-negative integer, as [ToString] gives it
    inside a template literal. *)
Definition of_N (n : N) : jsstring :=
  lit (NilZero.string_of_uint (N.to_uint n)).

(** [x] occurs in [s] as a contiguous run of code units. *)
Definition substring_of (x s : jsstring) : Prop :=
  ∃ pre post, s = pre ++ x ++ post.

Fixpoint starts_with (x s : jsstring) : bool :=
  match x, s with
  | [], _ => true
  | a :: x', b :: s' => (a =? b) && starts_with x' s'
  | _ :: _, [] => false
  end.

(** The executable test, [String.prototype.includes]. *)
Fixpoint includes (s x : jsstring) : bool :=
  starts_with x s ||
  match s with
  | [] => false
  | _ :: s' => includes s' x
  end.

End JSString.

Import JSString.

(** ** JavaScript values and JSON documents *)

Module JS.

(** Plain data values.  An object is the list of its own properties in
    property order; a number is an IEEE-754 double. *)
Inductive jsval :=
| Undefined
| Null
| Bool (b : bool)
| Number (x : spec_float)
| Str (s : jsstring)
| Arr (elems : list jsval)
| Obj (props : list (jsstring * jsval)).

Abbreviation object := (list (jsstring * jsval)).

(** Property read [o.k]; a missing property reads as [undefined]. *)
Fixpoint get (k : jsstring) (o : object) : jsval :=
  match o with
  | [] => Undefined
  | (k', v) :: o' => if decide (k = k') then v else get k o'
  end.

(** [ToBoolean]. *)
Definition truthy (v : jsval) : bool :=
  match v with
  | Undefined | Null => false
  | Bool b => b
  | Number (S754_zero _) | Number S754_nan => false
  | Number _ => true
  | Str [] => false
  | Str (_ :: _) => true
  | Arr _ | Obj _ => true
  end.

(** A JSON document, as a tree: the text layout (escapes, digits of a
    number) is not part of the model. *)
Inductive json :=
| JNull
| JBool (b : bool)
| JNum (x : spec_float)
| JStr (s : jsstring)
| JArr (elems : list json)
| JObj (members : list (jsstring * json)).

(** [JSON.stringify]: [None] is the [undefined] it returns for
    [undefined].  A property whose value is [undefined] is left out, an
    array element that is [undefined] becomes [null], a number that is
    not finite becomes [null] and [-0] is written [0]. *)
Fixpoint stringify (v : jsval) : option json :=
  match v with
  | Undefined => None
  | Null => Some JNull
  | Bool b => Some (JBool b)
  | Number (S754_finite s m e) => Some (JNum (S754_finite s m e))
  | Number (S754_zero _) => Some (JNum (S754_zero false))
  | Number _ => Some JNull
  | Str s => Some (JStr s)
  | Arr vs =>
      Some (JArr ((fix elements vs :=
                     match vs with
                     | [] => []
                     | v :: vs' => default JNull (stringify v) :: elements vs'
                     end) vs))
  | Obj ps =>
      Some (JObj ((fix members ps :=
                     match ps with
                     | [] => []
                     | (k, v) :: ps' =>
                         match stringify v with
                         | Some j => (k, j) :: members ps'
                         | None => members ps'
                         end
                     end) ps))
  end.

(** The value [JSON.parse] (and so [Response.json]) builds from a
    document. *)
Fixpoint reify (j : json) : jsval :=
  match j with
  | JNull => Null
  | JBool b => Bool b
  | JNum x => Number x
  | JStr s => Str s
  | JArr js => Arr (reify <$> js)
  | JObj ms => Obj (prod_map id reify <$> ms)
  end.

(** Member lookup in a JSON object. *)
Fixpoint assoc (k : jsstring) (ms : list (jsstring * json)) : option json :=
  match ms with
  | [] => None
  | (k', j) :: ms' => if decide (k = k') then Some j else assoc k ms'
  end.

Definition member (k : jsstring) (j : json) : option json :=
  match j with
  | JObj ms => assoc k ms
  | _ => None
  end.

(** What a [throw] or a rejected promise carries. *)
Variant error :=
| TypeError
| SyntaxError
| DOMException (name : jsstring).

End JS.

Import JS.

(** ** The browser, as far as the scripts touch it *)

Module Browser.

(** A text control of the contact form: its current text and the text
    the markup gives it, which a form reset restores. *)
Record input := { value : jsstring; defaultValue : jsstring }.

(** Modelled from the spec: the markup of the page is not in the
    repository.  Its contract is a form (id [contact-form]) whose text
    controls are the elements of ids [name], [email] and [message]; an
    element the markup lacks is [false] or [None], which is what
    [getElementById] returns as [null]. *)
Record contact_page := {
  contact_form : bool;
  name_field : option input;
  email_field : option input;
  message_field : option input
}.

(** One call of [fetch], as it leaves the browser. *)
Record request := {
  url : jsstring;
  method : jsstring;
  headers : list (jsstring * jsstring);
  body : option json
}.

(** What the network does with a request: the promise of [fetch]
    rejects, or resolves to a response with a status and a body that
    [Response.json] either parses or rejects. *)
Variant fetch_outcome :=
| Rejects (e : error)
| Responds (status : N) (parsed : error + json).

Record response := { status : N; parsed_body : error + json }.

(** [Response.ok]: the status is in the range 200-299. *)
Definition ok (r : response) : bool :=
  (200 <=? status r) && (status r <=? 299).

Record world := {
  document : contact_page;
  defaultPrevented : bool;
  console : list jsstring;
  alerts : list jsstring;
  sent : list request
}.

Variant completion (A : Type) :=
| Normal (a : A)
| Throw (e : error).
Arguments Normal {A} a.
Arguments Throw {A} e.

(** Effectful code: it runs in a world, completes normally or throws,
    and leaves a world.  An [await] is the sequencing of this monad; a
    rejected promise is a [Throw]. *)
Definition M (A : Type) : Type := world → completion A * world.

#[export] Instance M_ret : MRet M := λ A a w, (Normal a, w).

#[export] Instance M_bind : MBind M := λ A B f m w,
  match m w with
  | (Normal a, w') => f a w'
  | (Throw e, w') => (Throw e, w')
  end.

Definition throw {A} (e : error) : M A := λ w, (Throw e, w).

(** [try { body } catch (error) { handler }]. *)
Definition try_catch {A} (body : M A) (handler : error → M A) : M A := λ w,
  match body w with
  | (Normal a, w') => (Normal a, w')
  | (Throw e, w') => handler e w'
  end.

(** The single changes the scripts make to the world. *)
Definition logged (line : jsstring) (w : world) : world :=
  {| document := document w; defaultPrevented := defaultPrevented w;
     console := console w ++ [line]; alerts := alerts w; sent := sent w |}.

Definition alerted (message : jsstring) (w : world) : world :=
  {| document := document w; defaultPrevented := defaultPrevented w;
     console := console w; alerts := alerts w ++ [message]; sent := sent w |}.

Definition prevented (w : world) : world :=
  {| document := document w; defaultPrevented := true;
     console := console w; alerts := alerts w; sent := sent w |}.

Definition posted (rq : request) (w : world) : world :=
  {| document := document w; defaultPrevented := defaultPrevented w;
     console := console w; alerts := alerts w; sent := sent w ++ [rq] |}.

Definition with_document (d : contact_page) (w : world) : world :=
  {| document := d; defaultPrevented := defaultPrevented w;
     console := console w; alerts := alerts w; sent := sent w |}.

Definition console_log (line : jsstring) : M unit := λ w, (Normal (), logged line w).

Definition alert (message : jsstring) : M unit := λ w, (Normal (), alerted message w).

Definition preventDefault : M unit := λ w, (Normal (), prevented w).

(** [await fetch(url, init)]: the request leaves, and the network [net]
    decides what comes back. *)
Definition fetch (net : request → fetch_outcome) (rq : request) : M response := λ w,
  match net rq with
  | Rejects e => (Throw e, posted rq w)
  | Responds st parsed =>
      (Normal {| status := st; parsed_body := parsed |}, posted rq w)
  end.

(** [await res.json()]. *)
Definition res_json (res : response) : M jsval :=
  match parsed_body res with
  | inr j => mret (reify j)
  | inl e => throw e
  end.

End Browser.

Import Browser.

(** ** [sendEmail] (script.js, lines 18-50) *)

Module Email.

(** The result object [{ data }]; the [null] result is [None]. *)
Record result := { data : jsval }.

Definition endpoint : jsstring := lit "https://send-email-api-v2.backendservices.in".

Definition sender : jsval :=
  Obj [(lit "name", Str (lit "Simmer It"));
       (lit "email", Str (lit "noreply@arodos.com"))].

(** The object literal [body] of lines 20-28, after the destructuring
    of line 19. *)
Definition request_body (props : object) : jsval :=
  let sendTo := get (lit "sendTo") props in
  let subject := get (lit "subject") props in
  let htmlpart := get (lit "htmlpart") props in
  Obj [(lit "from", sender);
       (lit "to", sendTo);
       (lit "subject", subject);
       (lit "htmlpart", htmlpart)].

Definition post (props : object) : request :=
  {| url := endpoint;
     method := lit "POST";
     headers := [(lit "Content-Type", lit "application/json")];
     body := stringify (request_body props) |}.

(** The arguments as the JSDoc of the function types them (an array of
    [{name, email}] recipients, a subject and an HTML part, all strings),
    under the property names that line 19 reads and the submit handler
    passes; the JSDoc itself spells the last one [htmlPart]. *)
Record recipient := { recipient_name : jsstring; recipient_email : jsstring }.

Record NotificationRequest := {
  recipients : list recipient;
  subject : jsstring;
  htmlBody : jsstring
}.

Definition recipient_object (r : recipient) : jsval :=
  Obj [(lit "name", Str (recipient_name r)); (lit "email", Str (recipient_email r))].

Definition props_of (r : NotificationRequest) : object :=
  [(lit "sendTo", Arr (recipient_object <$> recipients r));
   (lit "subject", Str (subject r));
   (lit "htmlpart", Str (htmlBody r))].

(** The JSON document [{from: {name, email}, to: [{name, email}],
    subject, htmlpart}] of the external interface. *)
Definition recipient_json (r : recipient) : json :=
  JObj [(lit "name", JStr (recipient_name r)); (lit "email", JStr (recipient_email r))].

Definition wire_body (r : NotificationRequest) : json :=
  JObj [(lit "from", JObj [(lit "name", JStr (lit "Simmer It"));
                           (lit "email", JStr (lit "noreply@arodos.com"))]);
        (lit "to", JArr (recipient_json <$> recipients r));
        (lit "subject", JStr (subject r));
        (lit "htmlpart", JStr (htmlBody r))].

(** The error taxonomy of the specification, and the line each kind
    leaves on the console. *)
Variant failure :=
| HttpStatus (status : N)
| Transport (e : error)
| BodyParse (e : error).

Definition classify (o : fetch_outcome) : failure + json :=
  match o with
  | Rejects e => inl (Transport e)
  | Responds st parsed =>
      if (200 <=? st) && (st <=? 299) then
        match parsed with
        | inr j => inr j
        | inl e => inl (BodyParse e)
        end
      else inl (HttpStatus st)
  end.

Definition diagnostic (f : failure) : jsstring :=
  match f with
  | HttpStatus st => lit "HTTP error! status: " ++ of_N st
  | Transport _ | BodyParse _ => lit "Could not send email"
  end.

(** [props] is an object, as the JSDoc of the function declares. *)
Definition sendEmail (net : request → fetch_outcome) (props : object)
  : M (option result) :=
  try_catch
    (res ← fetch net (post props);
     if negb (ok res) then
       console_log (lit "HTTP error! status: " ++ of_N (status res));;
       mret None
     else
       data ← res_json res;
       mret (Some {| data := data |}))
    (λ error,
       console_log (lit "Could not send email");;
       mret None).

End Email.

Import Email.

(** ** [formSubmitTemplate] (script.js, lines 72-237)

    The template literal, one source line per line: [tabs n] is the
    indentation by tab characters, [dq] the double quote, and the five
    definitions are the literal's text between its four substitutions. *)

Module Template.
(** The text up to the name. *)
Definition opening : jsstring := lines [
  [];
  lit "    <div style=" ++ dq;
  lit "            font-family: 'Segoe UI', Tahoma, Geneva, Verdana, sans-serif;";
  lit "            line-height: 1.6;";
  lit "            max-width: 1080px;";
  lit "            margin: 0 auto;";
  lit "            background-color: #ffffff;";
  lit "            border-radius: 20px;";
  lit "            box-shadow: 0 15px 35px rgba(0, 0, 0, 0.12);";
  lit "            overflow: hidden;";
  lit "            border: 2px solid #f0f0f0;";
  lit "        " ++ dq ++ lit ">";
  tabs 1 ++ lit "<!-- Header -->";
  tabs 1 ++ lit "<header style=" ++ dq;
  lit "            background: linear-gradient(135deg, #FF0000 0%, #bf0000 100%);";
  lit "            padding: 40px 30px;";
  lit "            text-align: center;";
  lit "            position: relative;";
  lit "            " ++ dq ++ lit ">";
  tabs 2 ++ lit "<div style=" ++ dq;
  lit "                background: rgba(255, 255, 255, 0.1);";
  lit "                border-radius: 50%;";
  lit "                width: 80px;";
  lit "                height: 80px;";
  lit "                margin: 0 auto 20px auto;";
  lit "                display: flex;";
  lit "                align-items: center;";
  lit "                justify-content: center;";
  lit "                font-size: 32px;";
  lit "            " ++ dq ++ lit ">";
  tabs 3 ++ [0xD83D; 0xDCE7];
  tabs 2 ++ lit "</div>";
  tabs 2 ++ lit "<h1 style=" ++ dq;
  lit "                color: #ffffff;";
  lit "                font-size: 32px;";
  lit "                font-weight: 600;";
  lit "                margin: 0 0 10px 0;";
  lit "                letter-spacing: -0.5px;";
  lit "            " ++ dq ++ lit ">";
  tabs 3 ++ lit "New Contact Message";
  tabs 2 ++ lit "</h1>";
  tabs 2 ++ lit "<p style=" ++ dq;
  lit "                color: rgba(255, 255, 255, 0.9);";
  lit "                font-size: 18px;";
  lit "                margin: 0;";
  lit "                font-weight: 300;";
  lit "            " ++ dq ++ lit ">";
  tabs 3 ++ lit "You have received a new message from your website";
  tabs 2 ++ lit "</p>";
  tabs 1 ++ lit "</header>";
  [];
  tabs 1 ++ lit "<!-- Main Content -->";
  tabs 1 ++ lit "<div style=" ++ dq ++ lit "padding: 45px 35px;" ++ dq ++ lit ">";
  tabs 2 ++ lit "<!-- Message Details Card -->";
  tabs 2 ++ lit "<div style=" ++ dq;
  lit "                background: linear-gradient(135deg, #f8f9ff 0%, #f0f2ff 100%);";
  lit "                border: 2px solid #e6e8ff;";
  lit "                border-radius: 18px;";
  lit "                padding: 35px;";
  lit "                margin-bottom: 30px;";
  lit "            " ++ dq ++ lit ">";
  tabs 3 ++ lit "<h2 style=" ++ dq;
  lit "                    color: #4c51bf;";
  lit "                    font-size: 20px;";
  lit "                    font-weight: 600;";
  lit "                    margin: 0 0 25px 0;";
  lit "                    border-bottom: 2px solid #e6e8ff;";
  lit "                    padding-bottom: 10px;";
  lit "                " ++ dq ++ lit ">";
  tabs 4 ++ lit "Contact Information";
  tabs 3 ++ lit "</h2>";
  [];
  tabs 3 ++ lit "<div style=" ++ dq ++ lit "margin-bottom: 20px;" ++ dq ++ lit ">";
  tabs 4 ++ lit "<label style=" ++ dq;
  lit "                        display: block;";
  lit "                        font-size: 14px;";
  lit "                        font-weight: 600;";
  lit "                        color: #6b7280;";
  lit "                        margin-bottom: 8px;";
  lit "                        text-transform: uppercase;";
  lit "                        letter-spacing: 0.5px;";
  lit "                    " ++ dq ++ lit ">";
  lit "                        Full Name";
  lit "                    </label>";
  tabs 4 ++ lit "<p style=" ++ dq;
  lit "                        font-size: 18px;";
  lit "                        color: #1f2937;";
  lit "                        margin: 0;";
  lit "                        padding: 12px 16px;";
  lit "                        background-color: #ffffff;";
  lit "                        border-radius: 10px;";
  lit "                        border: 1px solid #d1d5db;";
  lit "                        font-weight: 500;";
  lit "                    " ++ dq ++ lit ">";
  tabs 5
].

(** The text from the name to the address inside the link target. *)
Definition after_name : jsstring := lines [
  [];
  tabs 4 ++ lit "</p>";
  tabs 3 ++ lit "</div>";
  [];
  tabs 3 ++ lit "<div style=" ++ dq ++ lit "margin-bottom: 20px;" ++ dq ++ lit ">";
  tabs 4 ++ lit "<label style=" ++ dq;
  lit "                        display: block;";
  lit "                        font-size: 14px;";
  lit "                        font-weight: 600;";
  lit "                        color: #6b7280;";
  lit "                        margin-bottom: 8px;";
  lit "                        text-transform: uppercase;";
  lit "                        letter-spacing: 0.5px;";
  lit "                    " ++ dq ++ lit ">";
  lit "                        Email Address";
  lit "                    </label>";
  tabs 4 ++ lit "<p style=" ++ dq;
  lit "                        font-size: 18px;";
  lit "                        color: #1f2937;";
  lit "                        margin: 0;";
  lit "                        padding: 12px 16px;";
  lit "                        background-color: #ffffff;";
  lit "                        border-radius: 10px;";
  lit "                        border: 1px solid #d1d5db;";
  lit "                        font-weight: 500;";
  lit "                    " ++ dq ++ lit ">";
  tabs 5 ++ lit "<a href=" ++ dq ++ lit "mailto:"
].

(** The text from the link target to the link text. *)
Definition after_href : jsstring := lines [
  dq ++ lit " style=" ++ dq ++ lit "color: #667eea; text-decoration: none;" ++ dq ++ lit ">"
].

(** The text from the link text to the message. *)
Definition after_email : jsstring := lines [
  lit "</a>";
  tabs 4 ++ lit "</p>";
  tabs 3 ++ lit "</div>";
  tabs 2 ++ lit "</div>";
  [];
  tabs 2 ++ lit "<!-- Message Content -->";
  tabs 2 ++ lit "<div style=" ++ dq;
  lit "                background: linear-gradient(135deg, #ffeded 0%, #ffeded 100%);";
  lit "                border: 2px solid #FF0000;";
  lit "                border-radius: 18px;";
  lit "                padding: 35px;";
  lit "                margin-bottom: 30px;";
  lit "            " ++ dq ++ lit ">";
  tabs 3 ++ lit "<h3 style=" ++ dq;
  lit "                    color: #92400e;";
  lit "                    font-size: 20px;";
  lit "                    font-weight: 600;";
  lit "                    margin: 0 0 20px 0;";
  lit "                    display: flex;";
  lit "                    align-items: center;";
  lit "                    gap: 10px;";
  lit "                " ++ dq ++ lit ">";
  tabs 4 ++ [0xD83D; 0xDCAC] ++ lit " Message Content";
  tabs 3 ++ lit "</h3>";
  tabs 3 ++ lit "<div style=" ++ dq;
  lit "                    background-color: #ffffff;";
  lit "                    border-radius: 12px;";
  lit "                    padding: 25px;";
  lit "                    border: 1px solid #fed7aa;";
  lit "                    min-height: 120px;";
  lit "                " ++ dq ++ lit ">";
  tabs 4 ++ lit "<p style=" ++ dq;
  lit "                        font-size: 16px;";
  lit "                        color: #374151;";
  lit "                        margin: 0;";
  lit "                        line-height: 1.7;";
  lit "                    " ++ dq ++ lit ">";
  lit "                    "
].

(** The text after the message. *)
Definition closing : jsstring := lines [
  [];
  tabs 4 ++ lit "</p>";
  tabs 3 ++ lit "</div>";
  tabs 2 ++ lit "</div>";
  tabs 1 ++ lit "</div>";
  lit "</div>";
  lit "    "
].

Definition formSubmitTemplate (name email message : jsstring) : jsstring :=
  opening ++ name ++ after_name ++ email ++ after_href ++ email
  ++ after_email ++ message ++ closing.

End Template.

Import Template.

(** ** The contact form (script.js, lines 254-282) *)

Module ContactForm.

(** The triple the handler captures from the form. *)
Record Submission := {
  name : jsstring;
  email : jsstring;
  message : jsstring
}.

Definition destination : jsstring := lit "you@example.com".
Definition subject_line : jsstring := lit "New Message from Website Contact Form".
Definition success_alert : jsstring := 0x2705 :: lit " Message sent successfully!".
Definition failure_alert : jsstring :=
  0x274C :: lit " Failed to send message. Please try again.".

(** [document.getElementById(id).value.trim()]: reading [value] of the
    [null] of a missing element throws. *)
Definition trimmed_value (field : contact_page → option input) : M jsstring := λ w,
  match field (document w) with
  | Some i => (Normal (trim (value i)), w)
  | None => (Throw TypeError, w)
  end.

(** Lines 260-262. *)
Definition capture : M Submission :=
  name ← trimmed_value name_field;
  email ← trimmed_value email_field;
  message ← trimmed_value message_field;
  mret {| name := name; email := email; message := message |}.

(** The argument of the call of [sendEmail], lines 267-271. *)
Definition notification (name htmlContent : jsstring) : object :=
  [(lit "sendTo", Arr [Obj [(lit "name", Str name);
                            (lit "email", Str destination)]]);
   (lit "subject", Str subject_line);
   (lit "htmlpart", Str htmlContent)].

(** The request a submission leaves the browser as. *)
Definition submission_post (s : Submission) : request :=
  post (notification (name s)
          (formSubmitTemplate (name s) (email s) (message s))).

Definition reset_input (i : input) : input :=
  {| value := defaultValue i; defaultValue := defaultValue i |}.

Definition reset_page (d : contact_page) : contact_page :=
  {| contact_form := contact_form d;
     name_field := reset_input <$> name_field d;
     email_field := reset_input <$> email_field d;
     message_field := reset_input <$> message_field d |}.

(** The current and the default texts of the three fields. *)
Definition field_texts (d : contact_page) : list (option jsstring) :=
  [value <$> name_field d; value <$> email_field d; value <$> message_field d].

Definition field_defaults (d : contact_page) : list (option jsstring) :=
  [defaultValue <$> name_field d; defaultValue <$> email_field d;
   defaultValue <$> message_field d].

(** [form.reset()]: every control of the form gets back the text the
    markup gives it. *)
Definition form_reset : M unit := λ w,
  (Normal (), with_document (reset_page (document w)) w).

(** [res && res.data]. *)
Definition delivered (res : option result) : bool :=
  match res with
  | Some r => truthy (data r)
  | None => false
  end.

(** The listener of the form's [submit] event, lines 257-281.  The form
    is the one the listener was added to, so it exists whenever the
    listener runs; no other event is taken to run between its steps. *)
Definition on_submit (net : request → fetch_outcome) : M unit :=
  preventDefault;;
  s ← capture;
  let htmlContent := formSubmitTemplate (name s) (email s) (message s) in
  res ← sendEmail net (notification (name s) htmlContent);
  if delivered res then
    alert success_alert;;
    form_reset
  else
    alert failure_alert.

(** The [DOMContentLoaded] listener of script.js, lines 254-257 and 282:
    it looks the form up and adds the submit listener to it, with no test
    for [null], so that on a page without the form the call throws and no
    listener is added. *)
Definition DOMContentLoaded (net : request → fetch_outcome) (d : contact_page)
  : completion (M unit) :=
  if contact_form d then Normal (on_submit net) else Throw TypeError.

End ContactForm.

Import ContactForm.

(** ** The mobile menu (inline script of the page) *)

Module MobileMenu.

(** An element, as far as the script looks at it: its class list, a set
    of tokens (the order in which the class attribute lists them is not
    modelled). *)
Record element := { classList : gset jsstring }.

Definition hidden : jsstring := lit "hidden".

(** [classList.toggle(token)]. *)
Definition toggle (token : jsstring) (e : element) : element :=
  if decide (token ∈ classList e)
  then {| classList := classList e ∖ {[token]} |}
  else {| classList := classList e ∪ {[token]} |}.

(** An element is shown when its class list lacks [hidden]. *)
Definition shown (e : element) : bool := bool_decide (hidden ∉ classList e).

(** What [getElementById] finds for the four ids; [None] is [null]. *)
Record menu_page := {
  mobileMenuButton : option element;
  mobileMenu : option element;
  hamburgerIcon : option element;
  closeIcon : option element
}.

(** The three elements the click listener holds. *)
Record menu := {
  panel : element;
  hamburger : element;
  close : element
}.

(** The click listener, lines 9-13. *)
Definition on_click (m : menu) : menu :=
  {| panel := toggle hidden (panel m);
     hamburger := toggle hidden (hamburger m);
     close := toggle hidden (close m) |}.

(** [target.addEventListener(type, listener)]: the call throws when the
    target is [null]. *)
Definition addEventListener {L} (target : option element) (listener : L)
  : completion (option L) :=
  match target with
  | Some _ => Normal (Some listener)
  | None => Throw TypeError
  end.

(** The [DOMContentLoaded] listener, lines 2-15: the guard of line 8
    decides whether the button gets a click listener; the listener it
    gets holds the three other elements. *)
Definition DOMContentLoaded (p : menu_page) : completion (option menu) :=
  match mobileMenuButton p, mobileMenu p, hamburgerIcon p, closeIcon p with
  | Some _, Some m, Some h, Some c =>
      addEventListener (mobileMenuButton p) {| panel := m; hamburger := h; close := c |}
  | _, _, _, _ => Normal None
  end.

(** A click on the button, on a page whose script ran at DOM-ready:
    the listener runs if one was added, and nothing happens otherwise. *)
Definition click (p : menu_page) : menu_page :=
  match DOMContentLoaded p with
  | Normal (Some m) =>
      let m' := on_click m in
      {| mobileMenuButton := mobileMenuButton p;
         mobileMenu := Some (panel m');
         hamburgerIcon := Some (hamburger m');
         closeIcon := Some (close m') |}
  | _ => p
  end.

(** Exactly one of the two icons is shown. *)
Definition one_icon (m : menu) : Prop := shown (hamburger m) ≠ shown (close m).

End MobileMenu.

Import MobileMenu.

(** ** Sample states *)

(** A form as a visitor left it: white space around the name and after
    the message, no text preset by the markup; and a network that answers
    every request the same way. *)
Definition filled_form : world :=
  {| document :=
       {| contact_form := true;
          name_field := Some {| value := lit " A "; defaultValue := [] |};
          email_field := Some {| value := lit "b@x.com"; defaultValue := [] |};
          message_field := Some {| value := lit "hi" ++ [LF]; defaultValue := [] |} |};
     defaultPrevented := false;
     console := [];
     alerts := [];
     sent := [] |}.

Definition filled_submission : Submission :=
  {| name := lit "A"; email := lit "b@x.com"; message := lit "hi" |}.

Definition answering (o : fetch_outcome) : request → fetch_outcome := λ _, o.

(** The same form on a page whose markup presets the name. *)
Definition preset_form : world :=
  {| document :=
       {| contact_form := true;
          name_field := Some {| value := lit " A "; defaultValue := lit "Guest" |};
          email_field := Some {| value := lit "b@x.com"; defaultValue := [] |};
          message_field := Some {| value := lit "hi" ++ [LF]; defaultValue := [] |} |};
     defaultPrevented := false;
     console := [];
     alerts := [];
     sent := [] |}.

(** The closed menu of the page: the panel and the close icon hidden,
    the hamburger icon shown. *)
Definition closed_menu : menu :=
  {| panel := {| classList := {[hidden; lit "md:hidden"]} |};
     hamburger := {| classList := {[lit "block"]} |};
     close := {| classList := {[hidden]} |} |}.

(** A page whose markup lacks the close icon. *)
Definition page_without_close_icon : menu_page :=
  {| mobileMenuButton := Some {| classList := ∅ |};
     mobileMenu := Some {| classList := {[hidden]} |};
     hamburgerIcon := Some {| classList := ∅ |};
     closeIcon := None |}.

(** ** Vocabulary and sample states of the further properties *)

(** [f] is [raw] without the white space around it: [raw] is [f] between
    two runs of white space, and [f] neither starts nor ends with white
    space. *)
Definition stripped (raw f : jsstring) : Prop :=
  (∃ pre post, raw = pre ++ f ++ post ∧ blank pre ∧ blank post) ∧
  (∀ c, head f = Some c → is_white_space c = false) ∧
  (∀ c, last f = Some c → is_white_space c = false).

(** A form whose markup lacks the address field. *)
Definition form_without_email : world :=
  {| document :=
       {| contact_form := true;
          name_field := Some {| value := lit "A"; defaultValue := [] |};
          email_field := None;
          message_field := Some {| value := lit "hi"; defaultValue := [] |} |};
     defaultPrevented := false;
     console := [];
     alerts := [];
     sent := [] |}.

(** A form in which the visitor typed nothing but white space. *)
Definition blank_form : world :=
  {| document :=
       {| contact_form := true;
          name_field := Some {| value := lit "  "; defaultValue := [] |};
          email_field := Some {| value := []; defaultValue := [] |};
          message_field := Some {| value := [LF; TAB]; defaultValue := [] |} |};
     defaultPrevented := false;
     console := [];
     alerts := [];
     sent := [] |}.

(** A page with the four elements of the menu, closed. *)
Definition menu_page_closed : menu_page :=
  {| mobileMenuButton := Some {| classList := {[lit "md:hidden"]} |};
     mobileMenu := Some (panel closed_menu);
     hamburgerIcon := Some (hamburger closed_menu);
     closeIcon := Some (close closed_menu) |}.

(** * Properties *)

(** ** Strings *)

Section string_facts.

Lemma starts_with_prefix x s :
  starts_with x s = true ↔ x `prefix_of` s.
Proof.
  revert s. induction x as [|a x IH]; intros [|b s]; simpl.
  - split; [intros _; apply prefix_nil | done].
  - split; [intros _; apply prefix_nil | done].
  - split; [done | intros H; by apply prefix_nil_not in H].
  - rewrite andb_true_iff, N.eqb_eq, IH. split.
    + intros [-> ?]. by apply prefix_cons.
    + intros H. split; [by apply prefix_cons_inv_1 in H | by apply prefix_cons_inv_2 in H].
Qed.

(** The executable test decides the occurrence. *)
Lemma includes_spec s x :
  includes s x = true ↔ substring_of x s.
Proof.
  induction s as [|b s IH]; simpl; rewrite orb_true_iff, starts_with_prefix.
  - split.
    + intros [[k ->]|?]; [by exists [], k | done].
    + intros (pre & post & H). left.
      destruct pre; [by exists post |].
      discriminate.
  - rewrite IH. split.
    + intros [[k ->]|(pre & post & ->)]; [by exists [], k |].
      by exists (b :: pre), post.
    + intros ([|c pre] & post & H); simpl in H.
      * left. by exists post.
      * right. injection H as _ ->. by exists pre, post.
Qed.

Lemma substring_of_mid pre x post : substring_of x (pre ++ x ++ post).
Proof. by exists pre, post. Qed.

Lemma trimStart_no_leading s c r :
  trimStart s = c :: r → is_white_space c = false.
Proof.
  induction s as [|a s IH]; simpl; [done |].
  destruct (is_white_space a) eqn:Ha; [done |].
  by intros [= <- _].
Qed.

Lemma trimStart_split s : ∃ pre, s = pre ++ trimStart s ∧ blank pre.
Proof.
  unfold blank. induction s as [|a s (pre & IH & Hpre)]; simpl.
  - exists []. by split; [| constructor].
  - destruct (is_white_space a) eqn:Ha.
    + exists (a :: pre). split; [simpl; by f_equal | by constructor].
    + exists []. by split; [| constructor].
Qed.

Lemma trimEnd_split s : ∃ post, s = trimEnd s ++ post ∧ blank post.
Proof.
  unfold trimEnd. destruct (trimStart_split (reverse s)) as (pre & H & Hpre).
  exists (reverse pre). split; [| by apply Forall_reverse].
  by rewrite <-reverse_app, <-H, reverse_involutive.
Qed.

(** What [trim] keeps is the text between two runs of white space... *)
Lemma trim_split s : ∃ pre post, s = pre ++ trim s ++ post ∧ blank pre ∧ blank post.
Proof.
  destruct (trimStart_split s) as (pre & H1 & Hpre).
  destruct (trimEnd_split (trimStart s)) as (post & H2 & Hpost).
  exists pre, post. split; [| done]. unfold trim. by rewrite <-H2.
Qed.

(** ... and it neither starts nor ends with white space. *)
Lemma trim_clean_start s c r : trim s = c :: r → is_white_space c = false.
Proof.
  unfold trim. intros H.
  destruct (trimEnd_split (trimStart s)) as (post & H2 & _).
  rewrite H in H2. by apply trimStart_no_leading in H2.
Qed.

Lemma trim_clean_end s c r : trim s = r ++ [c] → is_white_space c = false.
Proof.
  unfold trim, trimEnd. intros H. apply (f_equal reverse) in H.
  rewrite reverse_involutive, reverse_snoc in H.
  by apply trimStart_no_leading in H.
Qed.

End string_facts.

(** ** The e-mail helper *)

Section sendEmail_facts.

Variable net : request → fetch_outcome.

Lemma stringify_Arr vs :
  stringify (Arr vs) = Some (JArr ((λ v, default JNull (stringify v)) <$> vs)).
Proof.
  (* the inner recursion of [stringify] is the map itself *)
  reflexivity.
Qed.

Lemma stringify_recipients rs :
  stringify (Arr (recipient_object <$> rs)) = Some (JArr (recipient_json <$> rs)).
Proof.
  by rewrite stringify_Arr, <-list_fmap_compose.
Qed.

Lemma assoc_head k j ms : assoc k ((k, j) :: ms) = Some j.
Proof. simpl. by rewrite decide_True. Qed.

Lemma request_body_typed r :
  request_body (props_of r) =
  Obj [(lit "from", sender);
       (lit "to", Arr (recipient_object <$> recipients r));
       (lit "subject", Str (subject r));
       (lit "htmlpart", Str (htmlBody r))].
Proof. by vm_compute. Qed.

Lemma post_typed r :
  post (props_of r) =
  {| url := lit "https://send-email-api-v2.backendservices.in";
     method := lit "POST";
     headers := [(lit "Content-Type", lit "application/json")];
     body := Some (wire_body r) |}.
Proof.
  unfold post. rewrite request_body_typed. f_equal.
  pose proof (stringify_recipients (recipients r)) as H.
  unfold wire_body. cbn [stringify] in *.
  injection H as H. by rewrite H.
Qed.

(** What a call does, outcome by outcome. *)
Lemma sendEmail_run props w :
  sendEmail net props w =
  match classify (net (post props)) with
  | inr j => (Normal (Some {| data := reify j |}), posted (post props) w)
  | inl f => (Normal None, logged (diagnostic f) (posted (post props) w))
  end.
Proof.
  unfold sendEmail, try_catch, fetch, classify, mbind, M_bind, mret, M_ret, ok.
  destruct (net (post props)) as [e|st [e|j]]; simpl; try done.
  - by destruct ((200 <=? st) && (st <=? 299)).
  - by destruct ((200 <=? st) && (st <=? 299)).
Qed.

Lemma sendEmail_sent props w :
  sent (sendEmail net props w).2 = sent w ++ [post props].
Proof.
  rewrite sendEmail_run. by destruct (classify (net (post props))).
Qed.

End sendEmail_facts.

(** C4.  For every [props] object and whatever the network does, a call
    of [sendEmail] completes normally (it never throws) and has one of two
    results: each of the three kinds of failure (a status outside 200-299,
    a rejected [fetch], a response body that does not parse) is caught,
    leaves its line on the console and gives the null result; otherwise the
    result is the object holding the parsed response body. *)
Theorem sendEmail_binary_outcome (net : request → fetch_outcome) (props : object) (w : world) :
  (∃ r w', sendEmail net props w = (Normal r, w')) ∧
  sendEmail net props w =
    match classify (net (post props)) with
    | inr j => (Normal (Some {| data := reify j |}), posted (post props) w)
    | inl f => (Normal None, logged (diagnostic f) (posted (post props) w))
    end.
Proof.
  split; [| apply sendEmail_run].
  rewrite sendEmail_run. destruct (classify (net (post props))); eauto.
Qed.

(** C5.  A call of [sendEmail] sends exactly one request, whatever the
    network answers (there is no second attempt): a POST to the fixed
    endpoint with the single header [Content-Type: application/json]; and
    for arguments of the declared types its body is the JSON document
    [{from: {name, email}, to: [{name, email}], subject, htmlpart}]. *)
Theorem sendEmail_single_post (net : request → fetch_outcome) (w : world) :
  (∀ props : object, ∃ b,
     sent (sendEmail net props w).2 =
     sent w ++ [{| url := lit "https://send-email-api-v2.backendservices.in";
                   method := lit "POST";
                   headers := [(lit "Content-Type", lit "application/json")];
                   body := b |}]) ∧
  (∀ r : NotificationRequest,
     sent (sendEmail net (props_of r) w).2 =
     sent w ++ [{| url := lit "https://send-email-api-v2.backendservices.in";
                   method := lit "POST";
                   headers := [(lit "Content-Type", lit "application/json")];
                   body := Some (wire_body r) |}]).
Proof.
  split.
  - intros props. exists (stringify (request_body props)). apply sendEmail_sent.
  - intros r. by rewrite sendEmail_sent, post_typed.
Qed.

(** C9.  Whatever the arguments of a call of [sendEmail], the [from]
    member of the body of the request it sends is the constant
    [{name: "Simmer It", email: "noreply@arodos.com"}]. *)
Theorem sendEmail_from_constant (net : request → fetch_outcome) (props : object) (w : world) :
  ∃ rq, sent (sendEmail net props w).2 = sent w ++ [rq] ∧
        body rq ≫= member (lit "from") =
        Some (JObj [(lit "name", JStr (lit "Simmer It"));
                    (lit "email", JStr (lit "noreply@arodos.com"))]).
Proof.
  exists (post props). split; [apply sendEmail_sent |].
  unfold post, request_body. cbn [body stringify sender].
  cbn [mbind option_bind member]. apply assoc_head.
Qed.

(** ** The template *)

Section template_facts.

(** Each argument occurs in the generated HTML, as it is. *)
Lemma template_contains n e m :
  substring_of n (formSubmitTemplate n e m) ∧
  substring_of e (formSubmitTemplate n e m) ∧
  substring_of m (formSubmitTemplate n e m).
Proof.
  unfold formSubmitTemplate. repeat split.
  - apply substring_of_mid.
  - exists (opening ++ n ++ after_name), (after_href ++ e ++ after_email ++ m ++ closing).
    by rewrite <-!app_assoc.
  - exists (opening ++ n ++ after_name ++ e ++ after_href ++ e ++ after_email), closing.
    by rewrite <-!app_assoc.
Qed.

End template_facts.

(** C6.  For name "A", email "b@x.com" and message "hi", the string
    [formSubmitTemplate] returns contains the substrings "A", "b@x.com"
    and "hi". *)
Theorem template_example :
  let html := formSubmitTemplate (lit "A") (lit "b@x.com") (lit "hi") in
  includes html (lit "A") = true ∧ substring_of (lit "A") html ∧
  includes html (lit "b@x.com") = true ∧ substring_of (lit "b@x.com") html ∧
  includes html (lit "hi") = true ∧ substring_of (lit "hi") html.
Proof.
  intros html.
  assert (includes html (lit "A") = true) as HA by (by vm_compute).
  assert (includes html (lit "b@x.com") = true) as HB by (by vm_compute).
  assert (includes html (lit "hi") = true) as HC by (by vm_compute).
  refine (conj HA (conj _ (conj HB (conj _ (conj HC _)))));
    apply includes_spec; assumption.
Qed.

(** ** The submit handler *)

Section on_submit_facts.

Variable net : request → fetch_outcome.

Lemma capture_run w :
  capture w =
  match name_field (document w), email_field (document w), message_field (document w) with
  | Some n, Some e, Some m =>
      (Normal {| name := trim (value n); email := trim (value e);
                 message := trim (value m) |}, w)
  | _, _, _ => (Throw TypeError, w)
  end.
Proof.
  unfold capture, trimmed_value, mbind, M_bind, mret, M_ret.
  by destruct (name_field (document w)), (email_field (document w)),
    (message_field (document w)).
Qed.

(** Reading the fields changes nothing, and does not look at what the
    handler did before. *)
Lemma capture_prevented w s w0 :
  capture w = (Normal s, w0) →
  w0 = w ∧ capture (prevented w) = (Normal s, prevented w).
Proof.
  rewrite !capture_run. simpl.
  destruct (name_field (document w)), (email_field (document w)),
    (message_field (document w)); try done.
  by intros [= <- <-].
Qed.

(** A run of the handler on a form whose three fields exist. *)
Lemma on_submit_run w s w0 :
  capture w = (Normal s, w0) →
  on_submit net w =
  let w1 := posted (submission_post s) (prevented w) in
  match classify (net (submission_post s)) with
  | inr j =>
      if truthy (reify j)
      then (Normal (), with_document (reset_page (document w)) (alerted success_alert w1))
      else (Normal (), alerted failure_alert w1)
  | inl f => (Normal (), alerted failure_alert (logged (diagnostic f) w1))
  end.
Proof.
  intros [_ Hc]%capture_prevented.
  unfold on_submit, mbind, M_bind at 1 2 3. unfold preventDefault at 1.
  rewrite Hc, sendEmail_run. fold (submission_post s).
  destruct (classify (net (submission_post s))) as [f|j]; simpl; [done |].
  by destruct (truthy (reify j)).
Qed.

Lemma on_submit_sent w s w0 :
  capture w = (Normal s, w0) →
  sent (on_submit net w).2 = sent w ++ [submission_post s].
Proof.
  intros Hc. rewrite (on_submit_run w s w0 Hc).
  destruct (classify (net (submission_post s))) as [f|j]; simpl; [done |].
  by destruct (truthy (reify j)).
Qed.

End on_submit_facts.

(** C1.  For every submission, that is for the triple the handler
    captures from the three fields of the form (their text, with the white
    space at both ends trimmed off), the argument the handler passes to
    [sendEmail], and so the request that leaves, has exactly one
    recipient, whose address is the fixed destination whatever address was
    typed into the form, the fixed subject line, and an HTML body in which
    the submitted name, address and message occur as they are.  None of
    this needs the three to be non-empty. *)
Theorem submission_request (net : request → fetch_outcome) (w : world) (ni ei mi : input) :
  name_field (document w) = Some ni →
  email_field (document w) = Some ei →
  message_field (document w) = Some mi →
  ∃ s html,
    capture w = (Normal s, w) ∧
    name s = trim (value ni) ∧ email s = trim (value ei) ∧
    message s = trim (value mi) ∧
    let r := {| recipients := [{| recipient_name := name s;
                                  recipient_email := lit "you@example.com" |}];
                subject := lit "New Message from Website Contact Form";
                htmlBody := html |} in
    notification (name s) html = props_of r ∧
    sent (on_submit net w).2 = sent w ++ [post (props_of r)] ∧
    body (post (props_of r)) = Some (wire_body r) ∧
    html = formSubmitTemplate (name s) (email s) (message s) ∧
    substring_of (name s) html ∧
    substring_of (email s) html ∧
    substring_of (message s) html.
Proof.
  intros Hn He Hm.
  pose (s := {| name := trim (value ni); email := trim (value ei);
                message := trim (value mi) |}).
  assert (capture w = (Normal s, w)) as Hc by (by rewrite capture_run, Hn, He, Hm).
  exists s, (formSubmitTemplate (name s) (email s) (message s)).
  do 4 (split; [done |]). intros r.
  split; [done |].
  split; [apply (on_submit_sent net w s w Hc) |].
  split; [by rewrite post_typed |].
  split; [done |]. apply template_contains.
Qed.

Lemma submission_request_witness :
  ∃ s html,
    capture filled_form = (Normal s, filled_form) ∧
    name s = trim (lit " A ") ∧ email s = trim (lit "b@x.com") ∧
    message s = trim (lit "hi" ++ [LF]) ∧
    let r := {| recipients := [{| recipient_name := name s;
                                  recipient_email := lit "you@example.com" |}];
                subject := lit "New Message from Website Contact Form";
                htmlBody := html |} in
    notification (name s) html = props_of r ∧
    sent (on_submit (answering (Rejects TypeError)) filled_form).2 =
      sent filled_form ++ [post (props_of r)] ∧
    body (post (props_of r)) = Some (wire_body r) ∧
    html = formSubmitTemplate (name s) (email s) (message s) ∧
    substring_of (name s) html ∧
    substring_of (email s) html ∧
    substring_of (message s) html.
Proof.
  apply (submission_request (answering (Rejects TypeError)) filled_form
           {| value := lit " A "; defaultValue := [] |}
           {| value := lit "b@x.com"; defaultValue := [] |}
           {| value := lit "hi" ++ [LF]; defaultValue := [] |});
    reflexivity.
Defined.

(** C3.  If the answer to the request of the handler carries a status
    outside 200-299, the handler shows the failure alert and leaves the
    form as it is: none of the three fields is reset. *)
Theorem submit_http_error (net : request → fetch_outcome) (w w0 : world) (s : Submission)
    (st : N) (parsed : error + json) :
  capture w = (Normal s, w0) →
  net (submission_post s) = Responds st parsed →
  ¬ (200 ≤ st ≤ 299) →
  ∃ w', on_submit net w = (Normal (), w') ∧
        alerts w' = alerts w ++ [failure_alert] ∧
        document w' = document w ∧
        field_texts (document w') = field_texts (document w).
Proof.
  intros Hc Hnet Hst.
  rewrite (on_submit_run net w s w0 Hc), Hnet. unfold classify.
  destruct ((200 <=? st) && (st <=? 299)) eqn:E.
  - exfalso. apply Hst. apply andb_true_iff in E as [?%N.leb_le ?%N.leb_le]. lia.
  - eexists. split; [done |]. by simpl.
Qed.

Lemma submit_http_error_witness :
  ∃ w', on_submit (answering (Responds 500 (inr (JObj [])))) filled_form = (Normal (), w') ∧
        alerts w' = alerts filled_form ++ [failure_alert] ∧
        document w' = document filled_form ∧
        field_texts (document w') = field_texts (document filled_form).
Proof.
  apply (submit_http_error (answering (Responds 500 (inr (JObj []))))
           filled_form filled_form filled_submission 500 (inr (JObj []))).
  - reflexivity.
  - reflexivity.
  - lia.
Defined.

(** C2, as the specification words it, fails twice over.  A response
    with status 200 whose body is the JSON text [null] parses, and yet the
    handler shows the failure alert and leaves the fields as they are: the
    guard of line 275 asks for a truthy [data].  And after a truthy body
    the fields are not emptied but reset: a field whose text the markup
    presets gets that text back. *)
Lemma success_claim_fails :
  ¬ (∀ (net : request → fetch_outcome) (w w0 : world) (s : Submission) (st : N) (j : json),
       capture w = (Normal s, w0) →
       net (submission_post s) = Responds st (inr j) →
       200 ≤ st ≤ 299 →
       ∃ w', on_submit net w = (Normal (), w') ∧
             alerts w' = alerts w ++ [success_alert] ∧
             field_texts (document w') = [Some []; Some []; Some []]) ∧
  ¬ (∀ (net : request → fetch_outcome) (w w0 : world) (s : Submission) (st : N) (j : json),
       capture w = (Normal s, w0) →
       net (submission_post s) = Responds st (inr j) →
       200 ≤ st ≤ 299 →
       truthy (reify j) = true →
       ∃ w', on_submit net w = (Normal (), w') ∧
             alerts w' = alerts w ++ [success_alert] ∧
             field_texts (document w') = [Some []; Some []; Some []]).
Proof.
  split; intros H.
  - destruct (H (answering (Responds 200 (inr JNull)))
                filled_form filled_form filled_submission 200 JNull)
      as (w' & Hrun & Halert & _); [reflexivity | reflexivity | lia |].
    rewrite (on_submit_run _ filled_form filled_submission filled_form) in Hrun
      by reflexivity.
    simpl in Hrun. injection Hrun as <-. discriminate Halert.
  - destruct (H (answering (Responds 200 (inr (JObj []))))
                preset_form preset_form filled_submission 200 (JObj []))
      as (w' & Hrun & _ & Htexts); [reflexivity | reflexivity | lia | reflexivity |].
    rewrite (on_submit_run _ preset_form filled_submission preset_form) in Hrun
      by reflexivity.
    simpl in Hrun. injection Hrun as <-. discriminate Htexts.
Qed.

(** C2, as the code has it.  If the answer to the request of the handler
    carries a status in 200-299 and a body that parses to a truthy value,
    the handler shows the success alert and resets the form: each of the
    three fields gets back its default text, which is the empty text when
    the markup gives the field none. *)
Theorem submit_success (net : request → fetch_outcome) (w w0 : world) (s : Submission)
    (st : N) (j : json) :
  capture w = (Normal s, w0) →
  net (submission_post s) = Responds st (inr j) →
  200 ≤ st ≤ 299 →
  truthy (reify j) = true →
  ∃ w', on_submit net w = (Normal (), w') ∧
        alerts w' = alerts w ++ [success_alert] ∧
        document w' = reset_page (document w) ∧
        field_texts (document w') = field_defaults (document w).
Proof.
  intros Hc Hnet [Hlo Hhi] Hj.
  rewrite (on_submit_run net w s w0 Hc), Hnet. unfold classify.
  apply N.leb_le in Hlo, Hhi. rewrite Hlo, Hhi. simpl. rewrite Hj.
  eexists. split; [done |]. simpl. split; [done |]. split; [done |].
  unfold field_texts, field_defaults, reset_page. simpl.
  by destruct (name_field (document w)), (email_field (document w)),
    (message_field (document w)).
Qed.

Lemma submit_success_witness :
  ∃ w', on_submit (answering (Responds 200 (inr (JObj [])))) filled_form = (Normal (), w') ∧
        alerts w' = alerts filled_form ++ [success_alert] ∧
        document w' = reset_page (document filled_form) ∧
        field_texts (document w') = field_defaults (document filled_form).
Proof.
  apply (submit_success (answering (Responds 200 (inr (JObj []))))
           filled_form filled_form filled_submission 200 (JObj [])).
  - reflexivity.
  - reflexivity.
  - lia.
  - reflexivity.
Defined.

(** ** The mobile menu *)

Section menu_facts.

Lemma toggle_shown e : shown (toggle hidden e) = negb (shown e).
Proof.
  unfold shown, toggle. destruct (decide (hidden ∈ classList e)) as [Hin|Hout]; simpl.
  - rewrite (bool_decide_eq_true_2 (hidden ∉ classList e ∖ {[hidden]})) by set_solver.
    by rewrite (bool_decide_eq_false_2 (hidden ∉ classList e)) by auto.
  - rewrite (bool_decide_eq_false_2 (hidden ∉ classList e ∪ {[hidden]})) by set_solver.
    by rewrite (bool_decide_eq_true_2 (hidden ∉ classList e)).
Qed.

(** Toggling a token twice gives the class list back. *)
Lemma toggle_toggle t e : toggle t (toggle t e) = e.
Proof.
  destruct e as [S]. unfold toggle; simpl.
  destruct (decide (t ∈ S)) as [Hin|Hout]; simpl.
  - rewrite decide_False by set_solver. f_equal.
    apply set_eq. intros x. destruct (decide (x = t)); set_solver.
  - rewrite decide_True by set_solver. f_equal. set_solver.
Qed.

(** Toggling [hidden] leaves every other token where it is. *)
Lemma toggle_others e : classList (toggle hidden e) ∖ {[hidden]} = classList e ∖ {[hidden]}.
Proof.
  unfold toggle. destruct (decide (hidden ∈ classList e)); simpl; set_solver.
Qed.

Lemma on_click_involutive m : on_click (on_click m) = m.
Proof. destruct m. unfold on_click; simpl. by rewrite !toggle_toggle. Qed.

Lemma on_click_changes m : on_click m ≠ m.
Proof.
  intros H. apply (f_equal (λ m, shown (panel m))) in H.
  unfold on_click in H; simpl in H. rewrite toggle_shown in H.
  by destruct (shown (panel m)).
Qed.

Lemma one_icon_on_click m : one_icon m → one_icon (on_click m).
Proof.
  unfold one_icon, on_click; simpl. rewrite !toggle_shown.
  by destruct (shown (hamburger m)), (shown (close m)).
Qed.

Lemma one_icon_iter n m : one_icon m → one_icon (Nat.iter n on_click m).
Proof. intros H. induction n as [|n IH]; simpl; [done |]. by apply one_icon_on_click. Qed.

(** The script of the menu never throws at DOM-ready, and adds its
    listener exactly when the four elements exist. *)
Lemma menu_ready_normal p : ∃ l, DOMContentLoaded p = Normal l.
Proof.
  unfold DOMContentLoaded.
  destruct (mobileMenuButton p), (mobileMenu p), (hamburgerIcon p), (closeIcon p);
    simpl; eauto.
Qed.

Lemma menu_ready_registers p b m h c :
  mobileMenuButton p = Some b → mobileMenu p = Some m →
  hamburgerIcon p = Some h → closeIcon p = Some c →
  DOMContentLoaded p = Normal (Some {| panel := m; hamburger := h; close := c |}).
Proof. unfold DOMContentLoaded. by intros -> -> -> ->. Qed.

(** The listener is the one that runs when the four elements exist. *)
Lemma click_registered p m :
  DOMContentLoaded p = Normal (Some m) →
  click p = {| mobileMenuButton := mobileMenuButton p;
               mobileMenu := Some (panel (on_click m));
               hamburgerIcon := Some (hamburger (on_click m));
               closeIcon := Some (close (on_click m)) |}.
Proof. unfold click. by intros ->. Qed.

End menu_facts.

(** C7.  From a state in which exactly one of the two icons is shown,
    every click (the first and each one after it) flips whether the panel
    is shown and swaps which icon is shown, and leaves exactly one icon
    shown: the two icons are never shown together. *)
Theorem click_flips (m : menu) :
  one_icon m →
  ∀ n,
    let before := Nat.iter n on_click m in
    let after := on_click before in
    shown (panel after) = negb (shown (panel before)) ∧
    shown (hamburger after) = shown (close before) ∧
    shown (close after) = shown (hamburger before) ∧
    one_icon after ∧
    ¬ (shown (hamburger after) = true ∧ shown (close after) = true).
Proof.
  intros H n before after.
  assert (one_icon before) as Hb by (by apply one_icon_iter).
  split; [| split; [| split; [| split]]].
  - apply toggle_shown.
  - unfold after, on_click; simpl. rewrite toggle_shown.
    unfold one_icon in Hb. by destruct (shown (hamburger before)), (shown (close before)).
  - unfold after, on_click; simpl. rewrite toggle_shown.
    unfold one_icon in Hb. by destruct (shown (hamburger before)), (shown (close before)).
  - by apply one_icon_on_click.
  - apply one_icon_on_click in Hb. fold after in Hb. unfold one_icon in Hb.
    intros [H1 H2]. congruence.
Qed.

Lemma click_flips_witness :
  let before := Nat.iter 1 on_click closed_menu in
  let after := on_click before in
  shown (panel after) = negb (shown (panel before)) ∧
  shown (hamburger after) = shown (close before) ∧
  shown (close after) = shown (hamburger before) ∧
  one_icon after ∧
  ¬ (shown (hamburger after) = true ∧ shown (close after) = true).
Proof.
  apply (click_flips closed_menu). unfold one_icon. vm_compute. discriminate.
Defined.

(** C8, as the specification words it, fails: a click is not idempotent.
    A second click does not leave the menu as the first click left it; it
    undoes the first. *)
Lemma on_click_not_idempotent :
  ¬ (∀ m : menu, on_click (on_click m) = on_click m).
Proof.
  intros H. specialize (H closed_menu).
  rewrite on_click_involutive in H. symmetry in H.
  by apply on_click_changes in H.
Qed.

(** C8, as the code has it.  A click is an involution: the second of two
    clicks undoes the first, and no click leaves the menu as it was.  A
    click changes nothing but whether [hidden] is among the classes of the
    panel, of the hamburger icon and of the close icon: each of the three
    flips, and every other class of the three stays. *)
Theorem on_click_involution (m : menu) :
  on_click (on_click m) = m ∧
  on_click m ≠ m ∧
  shown (panel (on_click m)) = negb (shown (panel m)) ∧
  shown (hamburger (on_click m)) = negb (shown (hamburger m)) ∧
  shown (close (on_click m)) = negb (shown (close m)) ∧
  classList (panel (on_click m)) ∖ {[hidden]} = classList (panel m) ∖ {[hidden]} ∧
  classList (hamburger (on_click m)) ∖ {[hidden]} = classList (hamburger m) ∖ {[hidden]} ∧
  classList (close (on_click m)) ∖ {[hidden]} = classList (close m) ∖ {[hidden]}.
Proof.
  split; [apply on_click_involutive |]. split; [apply on_click_changes |].
  unfold on_click; simpl. by rewrite !toggle_shown, !toggle_others.
Qed.

(** C10.  If one of the four elements is missing when the DOM is ready,
    the [DOMContentLoaded] listener completes normally (the guard of line
    8 stands before the only call that a [null] could make throw) and adds
    no click listener: a click, and any number of clicks, leaves every
    element as it is. *)
Theorem missing_element_no_listener (p : menu_page) :
  mobileMenuButton p = None ∨ mobileMenu p = None ∨
  hamburgerIcon p = None ∨ closeIcon p = None →
  DOMContentLoaded p = Normal None ∧ click p = p ∧ ∀ n, Nat.iter n click p = p.
Proof.
  intros H.
  assert (DOMContentLoaded p = Normal None) as Hnone.
  { unfold DOMContentLoaded.
    destruct (mobileMenuButton p), (mobileMenu p), (hamburgerIcon p), (closeIcon p);
      naive_solver. }
  assert (click p = p) as Hclick by (unfold click; by rewrite Hnone).
  repeat split; [done | done |].
  intros n. induction n as [|n IH]; simpl; [done |]. by rewrite IH.
Qed.

Lemma missing_element_no_listener_witness :
  DOMContentLoaded page_without_close_icon = Normal None ∧
  click page_without_close_icon = page_without_close_icon ∧
  ∀ n, Nat.iter n click page_without_close_icon = page_without_close_icon.
Proof.
  apply (missing_element_no_listener page_without_close_icon).
  right; right; right. reflexivity.
Defined.

(** * Further properties of the code *)

(** ** [sendEmail]: what reaches the wire, and what a call touches *)

Section serialisation_facts.

(** The members of a serialised object: the properties whose value is
    not [undefined], in property order. *)
Lemma stringify_Obj ps :
  stringify (Obj ps) =
  Some (JObj (omap (λ kv, pair kv.1 <$> stringify kv.2) ps)).
Proof.
  simpl. do 2 f_equal. induction ps as [|[k v] ps IH]; [done |].
  rewrite IH. simpl. by destruct (stringify v).
Qed.

Lemma assoc_None k (ps : object) :
  k ∉ ps.*1 → assoc k (omap (λ kv, pair kv.1 <$> stringify kv.2) ps) = None.
Proof.
  induction ps as [|[k' v] ps IH]; simpl; [done |].
  intros Hk. apply not_elem_of_cons in Hk as [Hne Hk].
  destruct (stringify v); simpl; [| by apply IH].
  rewrite decide_False by done. by apply IH.
Qed.

(** Reading a member of the serialised object is serialising the
    property, as long as no property name occurs twice. *)
Lemma assoc_stringify k (ps : object) :
  NoDup ps.*1 →
  assoc k (omap (λ kv, pair kv.1 <$> stringify kv.2) ps) = stringify (get k ps).
Proof.
  induction ps as [|[k' v] ps IH]; simpl; [done |].
  intros [Hk' Hnd]%NoDup_cons.
  destruct (decide (k = k')) as [->|Hne].
  - destruct (stringify v); simpl; [by rewrite decide_True |].
    by apply assoc_None.
  - destruct (stringify v); simpl; [rewrite decide_False by done |]; by apply IH.
Qed.

Lemma omap_keys_sublist (ps : object) :
  (omap (λ kv, pair kv.1 <$> stringify kv.2) ps).*1 `sublist_of` ps.*1.
Proof.
  induction ps as [|[k v] ps IH]; simpl; [done |].
  destruct (stringify v); simpl; by constructor.
Qed.

Lemma request_body_keys props :
  ∃ ps, request_body props = Obj ps ∧
        ps.*1 = [lit "from"; lit "to"; lit "subject"; lit "htmlpart"] ∧
        get (lit "to") ps = get (lit "sendTo") props ∧
        get (lit "subject") ps = get (lit "subject") props ∧
        get (lit "htmlpart") ps = get (lit "htmlpart") props.
Proof. eexists. split; [reflexivity |]. by vm_compute. Qed.

Lemma body_keys_NoDup :
  NoDup [lit "from"; lit "to"; lit "subject"; lit "htmlpart"].
Proof. apply (bool_decide_unpack _). by vm_compute. Qed.

End serialisation_facts.

(** X1.  The members [to], [subject] and [htmlpart] of the body that a
    call sends are the serialised properties [sendTo], [subject] and
    [htmlpart] of its argument; a property the argument lacks (or holds as
    [undefined]) leaves no member at all in the body. *)
Theorem sendEmail_members (net : request → fetch_outcome) (props : object) (w : world) :
  ∃ rq, sent (sendEmail net props w).2 = sent w ++ [rq] ∧
        body rq ≫= member (lit "to") = stringify (get (lit "sendTo") props) ∧
        body rq ≫= member (lit "subject") = stringify (get (lit "subject") props) ∧
        body rq ≫= member (lit "htmlpart") = stringify (get (lit "htmlpart") props).
Proof.
  exists (post props). split; [apply sendEmail_sent |].
  destruct (request_body_keys props) as (ps & Hps & Hkeys & Hto & Hsub & Hhtml).
  assert (NoDup ps.*1) as Hnd by (rewrite Hkeys; apply body_keys_NoDup).
  unfold post. cbn [body]. rewrite Hps, stringify_Obj.
  cbn [mbind option_bind member].
  rewrite !assoc_stringify by done. by rewrite Hto, Hsub, Hhtml.
Qed.

(** X2.  Nothing else of the argument reaches the wire: whatever other
    properties the argument has, the body has no member other than [from],
    [to], [subject] and [htmlpart], and has them in this order. *)
Theorem sendEmail_no_other_members (net : request → fetch_outcome) (props : object) (w : world) :
  ∃ rq ms, sent (sendEmail net props w).2 = sent w ++ [rq] ∧
           body rq = Some (JObj ms) ∧
           ms.*1 `sublist_of` [lit "from"; lit "to"; lit "subject"; lit "htmlpart"].
Proof.
  destruct (request_body_keys props) as (ps & Hps & Hkeys & _).
  exists (post props), (omap (λ kv, pair kv.1 <$> stringify kv.2) ps).
  split; [apply sendEmail_sent |]. split.
  - unfold post. cbn [body]. by rewrite Hps, stringify_Obj.
  - rewrite <-Hkeys. apply omap_keys_sublist.
Qed.

(** X3.  A call of [sendEmail] touches nothing but the network and the
    console: it shows no alert and leaves the page and the event alone;
    and it writes exactly one line to the console when its result is
    [null], and none when its result is an object. *)
Theorem sendEmail_confined (net : request → fetch_outcome) (props : object) (w : world) :
  let w' := (sendEmail net props w).2 in
  document w' = document w ∧
  alerts w' = alerts w ∧
  defaultPrevented w' = defaultPrevented w ∧
  match (sendEmail net props w).1 with
  | Normal (Some _) => console w' = console w
  | Normal None => ∃ line, console w' = console w ++ [line]
  | Throw _ => False
  end.
Proof.
  rewrite sendEmail_run.
  destruct (classify (net (post props))) as [f|j]; simpl; eauto 6.
Qed.

(** ** The submit handler: every way a submission can go *)

Section submission_facts.

Variable net : request → fetch_outcome.

Lemma blank_trimStart s : blank s → trimStart s = [].
Proof.
  induction 1 as [|c s Hc _ IH]; simpl; [done |]. by rewrite Hc.
Qed.

Lemma blank_trim s : blank s → trim s = [].
Proof. intros H. unfold trim, trimEnd. by rewrite (blank_trimStart s H). Qed.

Lemma trim_stripped s : stripped s (trim s).
Proof.
  split; [apply trim_split |]. split.
  - intros c Hc. destruct (trim s) as [|c' r] eqn:E; [done |].
    injection Hc as ->. by apply (trim_clean_start s c r).
  - intros c Hc. apply last_Some in Hc as [r Hr].
    by apply (trim_clean_end s c r).
Qed.

Lemma alerts_differ : success_alert ≠ failure_alert.
Proof. by vm_compute. Qed.

(** A missing field stops the handler right after [preventDefault]. *)
Lemma on_submit_throws w e w0 :
  capture w = (Throw e, w0) → on_submit net w = (Throw e, prevented w).
Proof.
  rewrite capture_run. intros Hc.
  unfold on_submit, mbind, M_bind at 1 2. unfold preventDefault at 1.
  rewrite capture_run. simpl.
  destruct (name_field (document w)), (email_field (document w)),
    (message_field (document w)); try done; by injection Hc as <- _.
Qed.

End submission_facts.

(** X4.  If the page lacks one of the three fields, the handler throws a
    [TypeError] right after preventing the default action of the event: no
    request is sent, no alert is shown, nothing is logged and the form is
    left alone. *)
Theorem submit_missing_field (net : request → fetch_outcome) (w : world) :
  name_field (document w) = None ∨ email_field (document w) = None ∨
  message_field (document w) = None →
  ∃ w', on_submit net w = (Throw TypeError, w') ∧
        defaultPrevented w' = true ∧
        sent w' = sent w ∧ alerts w' = alerts w ∧
        console w' = console w ∧ document w' = document w.
Proof.
  intros H. exists (prevented w). split; [| done].
  apply (on_submit_throws net w TypeError w). rewrite capture_run.
  destruct (name_field (document w)), (email_field (document w)),
    (message_field (document w)); naive_solver.
Qed.

Lemma submit_missing_field_witness :
  ∃ w', on_submit (answering (Responds 200 (inr (JObj [])))) form_without_email
        = (Throw TypeError, w') ∧
        defaultPrevented w' = true ∧
        sent w' = sent form_without_email ∧ alerts w' = alerts form_without_email ∧
        console w' = console form_without_email ∧
        document w' = document form_without_email.
Proof.
  apply (submit_missing_field (answering (Responds 200 (inr (JObj [])))) form_without_email).
  right; left. reflexivity.
Defined.

(** X5.  If the request of the handler is rejected by the network, or is
    answered with a status in 200-299 and a body that does not parse, the
    handler completes normally, shows the failure alert, leaves the form
    as it is, and the console gets the line "Could not send email". *)
Theorem submit_unreachable (net : request → fetch_outcome) (w w0 : world) (s : Submission) :
  capture w = (Normal s, w0) →
  (∃ e, net (submission_post s) = Rejects e) ∨
  (∃ st e, net (submission_post s) = Responds st (inl e) ∧ 200 ≤ st ≤ 299) →
  ∃ w', on_submit net w = (Normal (), w') ∧
        alerts w' = alerts w ++ [failure_alert] ∧
        console w' = console w ++ [lit "Could not send email"] ∧
        document w' = document w.
Proof.
  intros Hc Hnet. rewrite (on_submit_run net w s w0 Hc).
  destruct Hnet as [[e ->]|(st & e & -> & Hlo & Hhi)]; unfold classify.
  - eexists. by split.
  - apply N.leb_le in Hlo, Hhi. rewrite Hlo, Hhi. simpl. eexists. by split.
Qed.

Lemma submit_unreachable_witness :
  ∃ w', on_submit (answering (Rejects TypeError)) filled_form = (Normal (), w') ∧
        alerts w' = alerts filled_form ++ [failure_alert] ∧
        console w' = console filled_form ++ [lit "Could not send email"] ∧
        document w' = document filled_form.
Proof.
  apply (submit_unreachable (answering (Rejects TypeError))
           filled_form filled_form filled_submission).
  - reflexivity.
  - left. exists TypeError. reflexivity.
Defined.

(** The branches of the handler that end in the failure alert. *)
Ltac failure_case Hd :=
  eexists _, failure_alert;
  do 3 (split; [reflexivity |]);
  split; [right; by split |];
  split; [intros Heq; symmetry in Heq; by destruct Hd |].

(** X6.  On a form whose three fields exist the handler never throws; it
    sends exactly one request and shows exactly one alert.  The alert is
    the success alert exactly when the answer has a status in 200-299 and
    a body that parses to a truthy value, and the form is reset exactly
    then; in every other case the alert is the failure alert and the form
    is left as it is. *)
Theorem submit_outcome (net : request → fetch_outcome) (w w0 : world) (s : Submission) :
  capture w = (Normal s, w0) →
  ∃ w' a, on_submit net w = (Normal (), w') ∧
          sent w' = sent w ++ [submission_post s] ∧
          alerts w' = alerts w ++ [a] ∧
          ((a = success_alert ∧ document w' = reset_page (document w)) ∨
           (a = failure_alert ∧ document w' = document w)) ∧
          (a = success_alert ↔
           ∃ st j, net (submission_post s) = Responds st (inr j) ∧
                   200 ≤ st ≤ 299 ∧ truthy (reify j) = true).
Proof.
  intros Hc. rewrite (on_submit_run net w s w0 Hc).
  pose proof alerts_differ as Hd.
  destruct (net (submission_post s)) as [e|st [e|j]] eqn:Hnet; unfold classify.
  - failure_case Hd. by intros (? & ? & ? & _).
  - destruct ((200 <=? st) && (st <=? 299)); simpl;
      failure_case Hd; by intros (? & ? & ? & _).
  - destruct ((200 <=? st) && (st <=? 299)) eqn:E; simpl.
    + apply andb_true_iff in E as [Hlo%N.leb_le Hhi%N.leb_le].
      destruct (truthy (reify j)) eqn:Hj.
      * eexists _, success_alert.
        do 3 (split; [reflexivity |]). split; [left; by split |].
        split; [intros _; by exists st, j | done].
      * failure_case Hd.
        intros (st' & j' & [= <- <-] & _ & Hj'). congruence.
    + failure_case Hd.
      intros (st' & j' & [= <- <-] & [Hlo Hhi] & _).
      apply N.leb_le in Hlo, Hhi. rewrite Hlo, Hhi in E. done.
Qed.

Lemma submit_outcome_witness :
  ∃ w' a, on_submit (answering (Responds 200 (inr (JBool false)))) filled_form
          = (Normal (), w') ∧
          sent w' = sent filled_form ++ [submission_post filled_submission] ∧
          alerts w' = alerts filled_form ++ [a] ∧
          ((a = success_alert ∧ document w' = reset_page (document filled_form)) ∨
           (a = failure_alert ∧ document w' = document filled_form)) ∧
          (a = success_alert ↔
           ∃ st j, answering (Responds 200 (inr (JBool false)))
                     (submission_post filled_submission) = Responds st (inr j) ∧
                   200 ≤ st ≤ 299 ∧ truthy (reify j) = true).
Proof.
  apply (submit_outcome (answering (Responds 200 (inr (JBool false))))
           filled_form filled_form filled_submission).
  reflexivity.
Defined.

Section resubmission_facts.

Variable net : request → fetch_outcome.



(** ... and when it ends in the success alert. *)
Lemma on_submit_succeeded w s w0 :
  capture w = (Normal s, w0) →
  alerts (on_submit net w).2 = alerts w ++ [success_alert] →
  document (on_submit net w).2 = reset_page (document w) ∧
  sent (on_submit net w).2 = sent w ++ [submission_post s].
Proof.
  intros Hc. rewrite (on_submit_run net w s w0 Hc).
  destruct (classify (net (submission_post s))) as [f|j]; simpl.
  - intros H%app_inv_head. injection H as H. symmetry in H. by destruct alerts_differ.
  - destruct (truthy (reify j)); simpl; [done |].
    intros H%app_inv_head. injection H as H. symmetry in H. by destruct alerts_differ.
Qed.

End resubmission_facts.

(** X7.  The handler validates nothing: a form whose three fields hold
    only white space (or nothing) is sent all the same, with the empty
    string as name, address and message. *)
Theorem submit_blank_fields (net : request → fetch_outcome) (w : world) (ni ei mi : input) :
  name_field (document w) = Some ni →
  email_field (document w) = Some ei →
  message_field (document w) = Some mi →
  blank (value ni) → blank (value ei) → blank (value mi) →
  capture w = (Normal {| name := []; email := []; message := [] |}, w) ∧
  sent (on_submit net w).2 =
  sent w ++ [post (notification [] (formSubmitTemplate [] [] []))].
Proof.
  intros Hn He Hm Bn Be Bm.
  assert (capture w = (Normal {| name := []; email := []; message := [] |}, w)) as Hc.
  { by rewrite capture_run, Hn, He, Hm, !blank_trim. }
  split; [done |]. by rewrite (on_submit_sent net w _ w Hc).
Qed.

Lemma submit_blank_fields_witness :
  capture blank_form = (Normal {| name := []; email := []; message := [] |}, blank_form) ∧
  sent (on_submit (answering (Rejects TypeError)) blank_form).2 =
  sent blank_form ++ [post (notification [] (formSubmitTemplate [] [] []))].
Proof.
  apply (submit_blank_fields (answering (Rejects TypeError)) blank_form
           {| value := lit "  "; defaultValue := [] |}
           {| value := []; defaultValue := [] |}
           {| value := [LF; TAB]; defaultValue := [] |});
    try reflexivity; unfold blank; simpl; repeat constructor.
Defined.

(** X8.  What the handler captures from a field is the text of the
    field without the white space around it: the text is the captured
    string between two runs of white space, and the captured string
    neither starts nor ends with white space. *)
Theorem capture_stripped (w : world) (ni ei mi : input) :
  name_field (document w) = Some ni →
  email_field (document w) = Some ei →
  message_field (document w) = Some mi →
  ∃ s, capture w = (Normal s, w) ∧
       stripped (value ni) (name s) ∧
       stripped (value ei) (email s) ∧
       stripped (value mi) (message s).
Proof.
  intros Hn He Hm. eexists. split; [by rewrite capture_run, Hn, He, Hm |].
  simpl. split; [| split]; apply trim_stripped.
Qed.

Lemma capture_stripped_witness :
  ∃ s, capture filled_form = (Normal s, filled_form) ∧
       stripped (lit " A ") (name s) ∧
       stripped (lit "b@x.com") (email s) ∧
       stripped (lit "hi" ++ [LF]) (message s).
Proof.
  apply (capture_stripped filled_form
           {| value := lit " A "; defaultValue := [] |}
           {| value := lit "b@x.com"; defaultValue := [] |}
           {| value := lit "hi" ++ [LF]; defaultValue := [] |});
    reflexivity.
Defined.

(** X9.  The handler prevents the default action of the submit event in
    every run, also in the runs that throw and in the runs that end in the
    failure alert: the page is never reloaded by a submission. *)
Theorem submit_prevents_default (net : request → fetch_outcome) (w : world) :
  defaultPrevented (on_submit net w).2 = true.
Proof.
  destruct (capture w) as [[s|e] w0] eqn:Hc.
  - rewrite (on_submit_run net w s w0 Hc).
    destruct (classify (net (submission_post s))) as [f|j]; simpl; [done |].
    by destruct (truthy (reify j)).
  - by rewrite (on_submit_throws net w e w0 Hc).
Qed.



(** X11.  After a submission that ends in the success alert the form
    holds the default texts of its fields, so that submitting again at
    once sends a second request, made from those default texts. *)
Theorem resubmit_after_success (net : request → fetch_outcome) (w : world) (ni ei mi : input) :
  name_field (document w) = Some ni →
  email_field (document w) = Some ei →
  message_field (document w) = Some mi →
  alerts (on_submit net w).2 = alerts w ++ [success_alert] →
  let s := {| name := trim (value ni); email := trim (value ei);
              message := trim (value mi) |} in
  let s0 := {| name := trim (defaultValue ni); email := trim (defaultValue ei);
               message := trim (defaultValue mi) |} in
  let w1 := (on_submit net w).2 in
  field_texts (document w1) = field_defaults (document w) ∧
  sent (on_submit net w1).2 = sent w ++ [submission_post s; submission_post s0].
Proof.
  intros Hn He Hm Hok s s0 w1.
  assert (capture w = (Normal s, w)) as Hc by (by rewrite capture_run, Hn, He, Hm).
  destruct (on_submit_succeeded net w s w Hc Hok) as (Hdoc & Hsent).
  fold w1 in Hdoc, Hsent.
  assert (capture w1 = (Normal s0, w1)) as Hc1.
  { rewrite capture_run, Hdoc. unfold reset_page. simpl. by rewrite Hn, He, Hm. }
  split.
  - rewrite Hdoc. unfold field_texts, field_defaults, reset_page. simpl.
    by rewrite Hn, He, Hm.
  - by rewrite (on_submit_sent net w1 s0 w1 Hc1), Hsent, <-app_assoc.
Qed.

Lemma resubmit_after_success_witness :
  let s := {| name := trim (lit " A "); email := trim (lit "b@x.com");
              message := trim (lit "hi" ++ [LF]) |} in
  let s0 := {| name := trim (lit "Guest"); email := trim []; message := trim [] |} in
  let w1 := (on_submit (answering (Responds 200 (inr (JObj [])))) preset_form).2 in
  field_texts (document w1) = field_defaults (document preset_form) ∧
  sent (on_submit (answering (Responds 200 (inr (JObj [])))) w1).2 =
    sent preset_form ++ [submission_post s; submission_post s0].
Proof.
  apply (resubmit_after_success (answering (Responds 200 (inr (JObj [])))) preset_form
           {| value := lit " A "; defaultValue := lit "Guest" |}
           {| value := lit "b@x.com"; defaultValue := [] |}
           {| value := lit "hi" ++ [LF]; defaultValue := [] |});
    reflexivity.
Defined.

(** ** The template: where the address goes *)

Section anchor_facts.

Lemma after_name_ends :
  ∃ A, after_name = A ++ lit "<a href=" ++ dq ++ lit "mailto:".
Proof.
  exists (take (length after_name - 16) after_name). by vm_compute.
Qed.

Lemma after_href_is :
  after_href =
  dq ++ lit " style=" ++ dq ++ lit "color: #667eea; text-decoration: none;" ++ dq ++ lit ">".
Proof. by vm_compute. Qed.

Lemma after_email_starts : ∃ C, after_email = lit "</a>" ++ C.
Proof. exists (drop 4 after_email). by vm_compute. Qed.

End anchor_facts.

(** X12.  Whatever the three arguments, the generated HTML holds the
    address twice, inside one anchor element: once after [mailto:] as the
    target of the link and once as the text of the link, both times as it
    was given. *)
Theorem template_anchor (n e m : jsstring) :
  substring_of
    (lit "<a href=" ++ dq ++ lit "mailto:" ++ e ++ dq ++ lit " style=" ++ dq
     ++ lit "color: #667eea; text-decoration: none;" ++ dq ++ lit ">"
     ++ e ++ lit "</a>")
    (formSubmitTemplate n e m).
Proof.
  destruct after_name_ends as [A HA]. destruct after_email_starts as [C HC].
  unfold formSubmitTemplate. rewrite HA, HC, after_href_is.
  exists (opening ++ n ++ A), (C ++ m ++ closing).
  by rewrite <-!app_assoc.
Qed.

(** ** The mobile menu: any number of clicks *)

Section clicks_facts.

Lemma iter_on_click_S n m :
  Nat.iter (S n) on_click m = on_click (Nat.iter n on_click m).
Proof. done. Qed.

Lemma shown_iter n m :
  shown (panel (Nat.iter n on_click m)) = xorb (Nat.odd n) (shown (panel m)) ∧
  shown (hamburger (Nat.iter n on_click m)) = xorb (Nat.odd n) (shown (hamburger m)) ∧
  shown (close (Nat.iter n on_click m)) = xorb (Nat.odd n) (shown (close m)).
Proof.
  induction n as [|n (IHp & IHh & IHc)]; [done |].
  rewrite iter_on_click_S, Nat.odd_succ, <-Nat.negb_odd.
  unfold on_click at 1 3 5; simpl. rewrite !toggle_shown, IHp, IHh, IHc.
  by destruct (Nat.odd n), (shown (panel m)), (shown (hamburger m)), (shown (close m)).
Qed.

Lemma iter_on_click_even n m : Nat.iter (2 * n) on_click m = m.
Proof.
  induction n as [|n IH]; [done |].
  replace (2 * S n)%nat with (S (S (2 * n))) by lia.
  by rewrite !iter_on_click_S, on_click_involutive.
Qed.

(** The page after a click, when the listener is there. *)
Lemma click_keeps_listener p m :
  DOMContentLoaded p = Normal (Some m) →
  DOMContentLoaded (click p) = Normal (Some (on_click m)) ∧
  mobileMenuButton (click p) = mobileMenuButton p.
Proof.
  intros H. rewrite (click_registered p m H). split; [| done].
  unfold DOMContentLoaded in *. simpl.
  by destruct (mobileMenuButton p).
Qed.

End clicks_facts.

(** X13.  After [n] clicks each of the three elements is shown if it was
    shown at the start and [n] is even, or was hidden at the start and [n]
    is odd; and after an even number of clicks the three elements are
    exactly as they were, class lists included. *)
Theorem clicks_parity (m : menu) (n : nat) :
  shown (panel (Nat.iter n on_click m)) = xorb (Nat.odd n) (shown (panel m)) ∧
  shown (hamburger (Nat.iter n on_click m)) = xorb (Nat.odd n) (shown (hamburger m)) ∧
  shown (close (Nat.iter n on_click m)) = xorb (Nat.odd n) (shown (close m)) ∧
  Nat.iter (2 * n) on_click m = m.
Proof.
  destruct (shown_iter n m) as (Hp & Hh & Hc).
  repeat split; [done | done | done |]. apply iter_on_click_even.
Qed.

(** X14.  The clicks neither make nor break the agreement of the three
    elements, which is left to the markup: after any number of clicks
    exactly one icon is shown if and only if exactly one was shown at the
    start, and the close icon is shown together with the panel if and only
    if it was at the start.  A page that starts with both icons shown never
    gets to show exactly one. *)
Theorem clicks_keep_agreement (m : menu) (n : nat) :
  (one_icon (Nat.iter n on_click m) ↔ one_icon m) ∧
  (shown (close (Nat.iter n on_click m)) = shown (panel (Nat.iter n on_click m)) ↔
   shown (close m) = shown (panel m)).
Proof.
  destruct (shown_iter n m) as (Hp & Hh & Hc).
  unfold one_icon. rewrite Hp, Hh, Hc.
  destruct (Nat.odd n), (shown (panel m)), (shown (hamburger m)), (shown (close m));
    simpl; split; split; congruence.
Qed.

(** X15.  On a page that has the four elements the click listener stays
    in place and works on the page: after [n] clicks the page holds the
    three elements toggled [n] times, all four elements are still there,
    and the button itself is as it was. *)
Theorem clicks_on_page (p : menu_page) (m : menu) (n : nat) :
  DOMContentLoaded p = Normal (Some m) →
  DOMContentLoaded (Nat.iter n click p) = Normal (Some (Nat.iter n on_click m)) ∧
  mobileMenuButton (Nat.iter n click p) = mobileMenuButton p.
Proof.
  intros H. induction n as [|n [IH1 IH2]]; [done |].
  simpl. destruct (click_keeps_listener _ _ IH1) as [H1 H2].
  split; [done |]. by rewrite H2.
Qed.

Lemma clicks_on_page_witness :
  DOMContentLoaded (Nat.iter 3 click menu_page_closed)
  = Normal (Some (Nat.iter 3 on_click closed_menu)) ∧
  mobileMenuButton (Nat.iter 3 click menu_page_closed)
  = mobileMenuButton menu_page_closed.
Proof.
  apply (clicks_on_page menu_page_closed closed_menu 3). reflexivity.
Defined.
